(** * grimoirelib/demography.py: activity and duration of persons

    A shallow embedding of [ActivityPersons], the duration conditions
    ([SnapshotCondition], [ActiveCondition]) and [DurationPersons], with the
    properties of the condition pipeline and of [durations()].

    Timestamps ([datetime.datetime]) and time spans ([datetime.timedelta])
    are integers (a count of time units since an epoch): both are discrete
    and totally ordered, and subtraction of two timestamps is a time span.
    Python's [None] is [None] of an option type.  A Python exception is a
    value of [PyError], and a call that can raise returns a [result]. *)

From stdpp Require Import gmap strings list fin_maps sorting.
From Stdlib Require Import ZArith Lia.

Local Open Scope Z_scope.

(** ** Exceptions and results *)

Inductive PyError : Type :=
| PyException (msg : string)       (* raise Exception (msg) *)
| AttributeError (attr : string)   (* an attribute or method that is not bound *)
| UnboundLocalError (name : string)(* a local variable read before assignment *)
| EmptyDomainError.                (* maxend() of an activity list with no event *)

Inductive result (X : Type) : Type :=
| Ok (x : X)
| Raise (e : PyError).
Arguments Ok {X} x.
Arguments Raise {X} e.

Global Instance result_ret : MRet result := λ X x, Ok x.
Global Instance result_bind : MBind result := λ X Y f r,
  match r with
  | Ok x => f x
  | Raise e => Raise e
  end.

(** [for x in xs: acc = f(acc, x)], stopping at the first exception. *)
Fixpoint for_each {X S} (f : S → X → result S) (xs : list X) (acc : S)
  : result S :=
  match xs with
  | [] => Ok acc
  | x :: xs' => acc' ← f acc x; for_each f xs' acc'
  end.

(** [x in (a, b, ...)] for strings. *)
Definition in_tuple (x : string) (t : list string) : bool :=
  existsb (String.eqb x) t.

Abbreviation Time := Z (only parsing).

(** ** The activity list interface

    [demography.py] calls four methods on whatever object it is given as
    activity: [active], [age], [idle] and [maxend].  Their code lives in
    another module; [DurationPersons] is written against this interface. *)

Class ActivitySource (A D : Type) : Type := {
  active : A → option Time → option Time → A; (* .active(after=, before=) *)
  age : A → Time → D;                         (* .age(date=) *)
  idle : A → Time → D;                        (* .idle(date=) *)
  maxend : A → result Time                    (* .maxend() *)
}.

(** ** ActivityList *)

(** The class ActivityList belongs to the module [scm_query], whose code
    is not part of these sources; the specification describes it.  An
    activity list maps a person to the ordered sequence of that person's
    timestamps, [gmap string (list Z)]; the durations of the persons are a
    [gmap string Z]. *)

Module ActivityList.

(** Modelled from the spec: the invariants of an ActivityList, which is
    missing from the sources; every sequence is non-empty and
    chronologically ascending. *)
Definition inv (L : gmap string (list Z)) : Prop :=
  map_Forall (λ _ ts, ts ≠ [] ∧ Sorted Z.le ts) L.

(** Modelled from the spec: a timestamp is inside the window when
    [after ≤ ts] (if [after] is given) and [ts < before] (if [before] is
    given). *)
Definition in_window (after before : option Z) (ts : Z) : bool :=
  match after with Some a => a <=? ts | None => true end
  && match before with Some b => ts <? b | None => true end.

(** Modelled from the spec: a person is active in a window when at least one
    of the person's timestamps is inside it. *)
Definition has_event_in (after before : option Z) (ts : list Z) : bool :=
  existsb (in_window after before) ts.

(** Modelled from the spec: [active(after, before)] is a new list with
    only the persons that have at least one timestamp in the window;
    the receiver is not changed. *)
Definition active (L : gmap string (list Z)) (after before : option Z)
  : gmap string (list Z) :=
  filter (λ kv, has_event_in after before kv.2 = true) L.

(** Modelled from the spec: the earliest and the latest timestamp of a
    sequence, its minimum and its maximum; an empty sequence has none. *)
Definition earliest (ts : list Z) : option Z :=
  match ts with
  | [] => None
  | t0 :: rest => Some (foldr Z.min t0 rest)
  end.

(** Modelled from the spec: the maximum of a sequence of timestamps. *)
Definition latest (ts : list Z) : option Z :=
  match ts with
  | [] => None
  | t0 :: rest => Some (foldr Z.max t0 rest)
  end.

(** Modelled from the spec: [age(date)] gives every person
    [date − earliest(person)]; a person without events is not
    represented. *)
Definition age (L : gmap string (list Z)) (date : Z) : gmap string Z :=
  omap (λ ts, (λ t0, date - t0) <$> earliest ts) L.

(** Modelled from the spec: [idle(date)] gives every person
    [date − latest(person)]. *)
Definition idle (L : gmap string (list Z)) (date : Z) : gmap string Z :=
  omap (λ ts, (λ t1, date - t1) <$> latest ts) L.

(** Modelled from the spec: all the timestamps of all the persons. *)
Definition events (L : gmap string (list Z)) : list Z :=
  concat (map snd (map_to_list L)).

(** Modelled from the spec: [maxend()] is the latest timestamp across all
    persons and all their events, and fails when there is none. *)
Definition maxend (L : gmap string (list Z)) : result Z :=
  match latest (events L) with
  | Some t1 => Ok t1
  | None => Raise EmptyDomainError
  end.

End ActivityList.

Global Instance ActivityList_source
  : ActivitySource (gmap string (list Z)) (gmap string Z) :=
  {| active := ActivityList.active;
     age := ActivityList.age;
     idle := ActivityList.idle;
     maxend := ActivityList.maxend |}.

(** ** DurationPersons and its conditions *)

Record DurationPersons (A : Type) : Type := mkDurationPersons {
  activity : A;
  var : string;
  snapshot : option Time
}.
Arguments mkDurationPersons {A} _ _ _.
Arguments activity {A} _.
Arguments var {A} _.
Arguments snapshot {A} _.

(** The conditions handed to [DurationPersons]: instances of the root class
    [DurationCondition], which has no [modify] method, or of one of its two
    subclasses. *)
Inductive DurationCondition : Type :=
| RootCondition
| SnapshotCondition (date : Time)
| ActiveCondition (after before : option Time).

(** The attributes bound on [self] while [__init__] runs; [None] is an
    attribute that is not bound yet (not Python's [None]). *)
Record instance_dict (A : Type) : Type := mkInstanceDict {
  bound_activity : option A;
  bound_var : option string;
  bound_snapshot : option (option Time)
}.
Arguments mkInstanceDict {A} _ _ _.
Arguments bound_activity {A} _.
Arguments bound_var {A} _.
Arguments bound_snapshot {A} _.

(** [self.var] *)
Definition getattr_var {A} (self : instance_dict A) : result string :=
  match bound_var self with
  | Some v => Ok v
  | None => Raise (AttributeError "var")
  end.

Section DurationPersons.

Context {A D : Type} `{ActivitySource A D}.

Definition set_snapshot (time : Time) (self : DurationPersons A)
  : DurationPersons A :=
  {| activity := activity self; var := var self; snapshot := Some time |}.

Definition set_activity (activity' : A) (self : DurationPersons A)
  : DurationPersons A :=
  {| activity := activity'; var := var self; snapshot := snapshot self |}.

(** [SnapshotCondition.modify]: [object.set_snapshot(self.date)] *)
Definition SnapshotCondition_modify (date : Time) (object : DurationPersons A)
  : DurationPersons A :=
  set_snapshot date object.

(** [ActiveCondition.modify]:
    [object.set_activity(object.activity.active(after, before))] *)
Definition ActiveCondition_modify (after before : option Time)
  (object : DurationPersons A) : DurationPersons A :=
  set_activity (active (activity object) after before) object.

(** [condition.modify(self)], dispatched on the class of [condition]. *)
Definition modify (condition : DurationCondition) (object : DurationPersons A)
  : result (DurationPersons A) :=
  match condition with
  | RootCondition => Raise (AttributeError "modify")
  | SnapshotCondition date => Ok (SnapshotCondition_modify date object)
  | ActiveCondition after before =>
      Ok (ActiveCondition_modify after before object)
  end.

(** [for condition in conditions: condition.modify(self)] *)
Definition apply_conditions (conditions : list DurationCondition)
  (self : DurationPersons A) : result (DurationPersons A) :=
  for_each (λ self condition, modify condition self) conditions self.

(** [DurationPersons.__init__] *)
Definition DurationPersons_init (var : string) (activity : A)
  (conditions : list DurationCondition) : result (DurationPersons A) :=
  let self := mkInstanceDict (Some activity) None None in
  if negb (in_tuple var ["age"; "idle"]) then
    v ← getattr_var self;
    Raise (PyException ("Not a valid variable: " +:+ v))
  else
    let self := mkDurationPersons activity var None in
    apply_conditions conditions self.

(** [DurationPersons.durations]: the object after the call, and what the
    call returns or raises. *)
Definition durations (self : DurationPersons A)
  : DurationPersons A * result D :=
  (self,
   snapshot ← match snapshot self with
              | None => maxend (activity self)
              | Some t => Ok t
              end;
   if String.eqb (var self) "age" then
     Ok (age (activity self) snapshot)
   else if String.eqb (var self) "idle" then
     Ok (idle (activity self) snapshot)
   else
     Raise (UnboundLocalError "durations")).

End DurationPersons.

(** ** ActivityPersons

    The session, the query object and the query conditions come from the
    modules [scm_query] and [scm]; the constructor only calls them.  They
    are an interface here, and every call made on them is recorded, in
    order, in a log. *)

Class SCMQuery (Session Query : Type) : Type := {
  buildSession : string → bool → Session;        (* buildSession(database=, echo=) *)
  session_query : Session → Query;               (* session.query() *)
  select_personsdata : string → Query → Query;   (* query.select_personsdata(kind) *)
  select_personsdata_uid : string → Query → Query;
  select_commitsperiod : Query → Query;
  group_by_person : Query → Query
}.

(** A query condition ([PeriodCondition], [NomergesCondition], ...): its
    [filter] method takes a query and gives the filtered query. *)
Record QueryCondition (Query : Type) : Type := mkQueryCondition {
  condition_name : string;
  condition_filter : Query → Query
}.
Arguments mkQueryCondition {Query} _ _.
Arguments condition_name {Query} _.
Arguments condition_filter {Query} _ _.

Inductive Call : Type :=
| CallBuildSession (database : string) (echo : bool)
| CallSessionQuery
| CallSelectPersonsdata (persons : string)
| CallSelectPersonsdataUid (persons : string)
| CallSelectCommitsperiod
| CallGroupByPerson
| CallFilter (condition : string).

(** A computation that appends to the log of calls and returns or raises;
    the log survives an exception. *)
Definition Traced (X : Type) : Type := list Call → list Call * result X.

Global Instance Traced_ret : MRet Traced := λ X x log, (log, Ok x).
Global Instance Traced_bind : MBind Traced := λ X Y f m log,
  match m log with
  | (log', Ok x) => f x log'
  | (log', Raise e) => (log', Raise e)
  end.

Definition raise {X} (e : PyError) : Traced X := λ log, (log, Raise e).

Definition call {X} (c : Call) (x : X) : Traced X := λ log, (log ++ [c], Ok x).

Fixpoint traced_for_each {X S} (f : S → X → Traced S) (xs : list X) (acc : S)
  : Traced S :=
  match xs with
  | [] => mret acc
  | x :: xs' => acc' ← f acc x; traced_for_each f xs' acc'
  end.

Record ActivityPersons (Session Query : Type) : Type := mkActivityPersons {
  session : Session;
  query : Query
}.
Arguments mkActivityPersons {Session Query} _ _.
Arguments session {Session Query} _.
Arguments query {Session Query} _.

Section ActivityPersons.

Context {Session Query : Type} `{SCMQuery Session Query}.

(** [ActivityPersons.__init__] *)
Definition ActivityPersons_init (var : string)
  (conditions : list (QueryCondition Query))
  (session : option Session) (database : option string) (echo : bool)
  : Traced (ActivityPersons Session Query) :=
  self_session ←
    match session with
    | Some s => mret s
    | None =>
        match database with
        | Some db => call (CallBuildSession db echo) (buildSession db echo)
        | None => raise (PyException
            "ActivityPersons: Either a session or a database must be specified")
        end
    end;
  persons ←
    (if in_tuple var ["list_authors"; "list_uauthors"] then mret "authors"
     else if in_tuple var ["list_committers"; "list_ucommitters"] then
       mret "committers"
     else
       raise (PyException ("ActivityPersons: Unknown variable " +:+ var +:+ ".")));
  q ← call CallSessionQuery (session_query self_session);
  q ←
    (if in_tuple var ["list_authors"; "list_committers"] then
       call (CallSelectPersonsdata persons) (select_personsdata persons q)
     else if in_tuple var ["list_uauthors"; "list_ucommitters"] then
       call (CallSelectPersonsdataUid persons) (select_personsdata_uid persons q)
     else
       raise (PyException ("ActivityPersons: Unknown variable " +:+ var +:+ ".")));
  q ← call CallSelectCommitsperiod (select_commitsperiod q);
  q ← call CallGroupByPerson (group_by_person q);
  q ← traced_for_each
        (λ q condition,
           call (CallFilter (condition_name condition))
                (condition_filter condition q))
        conditions q;
  mret (mkActivityPersons self_session q).

End ActivityPersons.

(** A symbolic session and query: each value is the history of the calls
    that built it.  It makes the constructor runnable on concrete input. *)
Inductive SymSession : Type :=
| GivenSession (name : string)
| BuiltSession (database : string) (echo : bool).

Inductive SymQuery : Type :=
| SessionQuery (s : SymSession)
| SelectPersonsdata (persons : string) (q : SymQuery)
| SelectPersonsdataUid (persons : string) (q : SymQuery)
| SelectCommitsperiod (q : SymQuery)
| GroupByPerson (q : SymQuery)
| Where (predicate : string) (q : SymQuery).

Global Instance SymQuery_api : SCMQuery SymSession SymQuery :=
  {| buildSession := BuiltSession;
     session_query := SessionQuery;
     select_personsdata := SelectPersonsdata;
     select_personsdata_uid := SelectPersonsdataUid;
     select_commitsperiod := SelectCommitsperiod;
     group_by_person := GroupByPerson |}.

Definition period_condition : QueryCondition SymQuery :=
  mkQueryCondition "period" (Where "date >= start").

Definition nomerges_condition : QueryCondition SymQuery :=
  mkQueryCondition "nomerges" (Where "not a merge").

(** The object after a method call made on it, whether the call returned
    or raised. *)
Inductive Method (A : Type) : Type :=
| Method_set_snapshot (time : Time)
| Method_set_activity (activity : A)
| Method_modify (condition : DurationCondition)
| Method_durations.
Arguments Method_set_snapshot {A} _.
Arguments Method_set_activity {A} _.
Arguments Method_modify {A} _.
Arguments Method_durations {A}.

Section Methods.

Context {A D : Type} `{ActivitySource A D}.

Definition after_call (self : DurationPersons A) (m : Method A)
  : DurationPersons A :=
  match m with
  | Method_set_snapshot time => set_snapshot time self
  | Method_set_activity activity' => set_activity activity' self
  | Method_modify condition =>
      match modify condition self with
      | Ok self' => self'
      | Raise _ => self
      end
  | Method_durations => (durations self).1
  end.

Definition after_calls (self : DurationPersons A) (ms : list (Method A))
  : DurationPersons A :=
  foldl after_call self ms.

(** The invariant of a constructed object. *)
Definition valid_var (self : DurationPersons A) : Prop :=
  var self = "age" ∨ var self = "idle".

End Methods.

(** A condition that leaves the snapshot alone, and a condition whose class
    defines [modify]. *)
Definition not_snapshot (c : DurationCondition) : Prop :=
  match c with SnapshotCondition _ => False | _ => True end.

Definition has_modify (c : DurationCondition) : Prop :=
  match c with RootCondition => False | _ => True end.

(** The same activity source with another [maxend]. *)
Definition with_maxend {A D} (src : ActivitySource A D)
  (maxend' : A → result Time) : ActivitySource A D :=
  {| active := @active A D src;
     age := @age A D src;
     idle := @idle A D src;
     maxend := maxend' |}.

(** The intersection of two windows: the later of the two [after] bounds
    and the earlier of the two [before] bounds, [None] being no bound. *)
Definition intersect_after (a1 a2 : option Time) : option Time :=
  match a1, a2 with
  | Some x, Some y => Some (Z.max x y)
  | Some x, None => Some x
  | None, a => a
  end.

Definition intersect_before (b1 b2 : option Time) : option Time :=
  match b1, b2 with
  | Some x, Some y => Some (Z.min x y)
  | Some x, None => Some x
  | None, b => b
  end.

(** Two windows that are bounded on the same side only. *)
Definition same_side (a1 b1 a2 b2 : option Z) : Prop :=
  (b1 = None ∧ b2 = None) ∨ (a1 = None ∧ a2 = None).

(** The scenario of the specification, in days since 2013-01-01:
    Alice has events on 2013-01-01 and 2013-06-01, Bob on 2013-03-01. *)
Definition alice_bob : gmap string (list Z) :=
  {[ "Alice" := [0; 151]; "Bob" := [59] ]}.

(** One person with an early and a late event. *)
Definition carol : gmap string (list Z) := {[ "Carol" := [1; 10] ]}.

(** The four variables of [ActivityPersons]. *)
Definition activity_variables : list string :=
  ["list_authors"; "list_committers"; "list_uauthors"; "list_ucommitters"].

(** The two exceptions of [ActivityPersons.__init__]. *)
Definition configuration_error : PyError :=
  PyException "ActivityPersons: Either a session or a database must be specified".

Definition unknown_variable_error (var : string) : PyError :=
  PyException ("ActivityPersons: Unknown variable " +:+ var +:+ ".").

(** A call that builds or extends a query. *)
Definition builds_query (c : Call) : bool :=
  match c with
  | CallBuildSession _ _ => false
  | _ => true
  end.

Section ActivityPersons_statements.

Context {Session Query : Type} `{SCMQuery Session Query}.

(** The session the constructor works with, if it gets one, and the calls
    it makes to get it. *)
Definition obtained_session (session : option Session)
  (database : option string) (echo : bool) : option Session :=
  match session, database with
  | Some s, _ => Some s
  | None, Some db => Some (buildSession db echo)
  | None, None => None
  end.

Definition session_calls (session : option Session)
  (database : option string) (echo : bool) : list Call :=
  match session, database with
  | Some _, _ => []
  | None, Some db => [CallBuildSession db echo]
  | None, None => []
  end.

(** The query of a session with a projection of the persons, the commits
    period, the grouping by person, and then the filter of every condition,
    in list order, each applied to the query so far. *)
Definition built_query (s : Session) (projection : Query → Query)
  (conditions : list (QueryCondition Query)) : Query :=
  foldl (λ q condition, condition_filter condition q)
    (group_by_person (select_commitsperiod (projection (session_query s))))
    conditions.

Definition filter_calls (conditions : list (QueryCondition Query))
  : list Call :=
  map (λ condition, CallFilter (condition_name condition)) conditions.

End ActivityPersons_statements.

(** The windows of the [ActiveCondition]s of a list of conditions, in list
    order, and the date of its last [SnapshotCondition] ([s0] when it has
    none). *)
Fixpoint windows (cs : list DurationCondition)
  : list (option Time * option Time) :=
  match cs with
  | [] => []
  | ActiveCondition after before :: cs' => (after, before) :: windows cs'
  | _ :: cs' => windows cs'
  end.

Fixpoint last_snapshot (cs : list DurationCondition) (s0 : option Time)
  : option Time :=
  match cs with
  | [] => s0
  | SnapshotCondition date :: cs' => last_snapshot cs' (Some date)
  | _ :: cs' => last_snapshot cs' s0
  end.

(** An activity narrowed by one window after the other. *)
Definition narrow {A D} `{ActivitySource A D} (L : A)
  (ws : list (option Time * option Time)) : A :=
  foldl (λ L' w, active L' w.1 w.2) L ws.

(** * Properties *)

(** ** Strings and tuples *)

Lemma in_tuple_age_idle (v : string) :
  in_tuple v ["age"; "idle"] = true ↔ v = "age" ∨ v = "idle".
Proof.
  unfold in_tuple; simpl.
  rewrite !orb_true_iff, !String.eqb_eq. intuition discriminate.
Qed.

Lemma eqb_age (v : string) : v = "age" → String.eqb v "age" = true.
Proof. intros ->. reflexivity. Qed.

Lemma eqb_idle (v : string) :
  v = "idle" → String.eqb v "age" = false ∧ String.eqb v "idle" = true.
Proof. intros ->. split; reflexivity. Qed.

(** ** The loop over the conditions *)

Lemma for_each_app {X S} (f : S → X → result S) (xs ys : list X) (acc : S) :
  for_each f (xs ++ ys) acc = (acc' ← for_each f xs acc; for_each f ys acc').
Proof.
  revert acc. induction xs as [|x xs IH]; intros acc; simpl; [done|].
  destruct (f acc x) as [acc'|e]; simpl; [apply IH | done].
Qed.

Section DurationPersons_facts.

Context {A D : Type} `{ActivitySource A D}.

Implicit Types (self target : DurationPersons A) (c : DurationCondition).

Lemma modify_var c self self' :
  modify c self = Ok self' → var self' = var self.
Proof. destruct c; simpl; intros [= <-]; reflexivity. Qed.

Lemma apply_conditions_var (cs : list DurationCondition) self self' :
  apply_conditions cs self = Ok self' → var self' = var self.
Proof.
  unfold apply_conditions. revert self.
  induction cs as [|c cs IH]; intros self; simpl.
  - by intros [= <-].
  - destruct (modify c self) as [s1|e] eqn:Hm; simpl; [|done].
    intros Hrest. rewrite (IH _ Hrest). by eapply modify_var.
Qed.

Lemma apply_conditions_snapshot (cs : list DurationCondition) self self' :
  Forall not_snapshot cs →
  apply_conditions cs self = Ok self' → snapshot self' = snapshot self.
Proof.
  unfold apply_conditions. intros Hcs. revert self.
  induction Hcs as [|c cs Hc _ IH]; intros self; simpl.
  - by intros [= <-].
  - destruct c as [|d|a b]; simpl in *; [done|done|].
    intros Hrest. by rewrite (IH _ Hrest).
Qed.

Lemma apply_conditions_total (cs : list DurationCondition) self :
  Forall has_modify cs → ∃ self', apply_conditions cs self = Ok self'.
Proof.
  unfold apply_conditions. intros Hcs. revert self.
  induction Hcs as [|c cs Hc _ IH]; intros self; simpl; [by eexists|].
  destruct c as [|d|a b]; simpl in *; [done|apply IH|apply IH].
Qed.

Lemma DurationPersons_init_Ok (v : string) (L : A)
  (cs : list DurationCondition) self :
  DurationPersons_init v L cs = Ok self →
  in_tuple v ["age"; "idle"] = true
  ∧ apply_conditions cs (mkDurationPersons L v None) = Ok self.
Proof.
  unfold DurationPersons_init.
  destruct (in_tuple v ["age"; "idle"]); simpl; [done|discriminate].
Qed.

(** Construction returns an object whenever the variable is one of the two
    recognised ones and every condition has a [modify] method. *)
Lemma DurationPersons_init_total (v : string) (L : A)
  (cs : list DurationCondition) :
  in_tuple v ["age"; "idle"] = true → Forall has_modify cs →
  ∃ self, DurationPersons_init v L cs = Ok self.
Proof.
  intros Hv Hcs. unfold DurationPersons_init. rewrite Hv; simpl.
  by apply apply_conditions_total.
Qed.

Lemma DurationPersons_init_valid (v : string) (L : A)
  (cs : list DurationCondition) self :
  DurationPersons_init v L cs = Ok self → valid_var self.
Proof.
  intros [Hv Hcs]%DurationPersons_init_Ok.
  apply apply_conditions_var in Hcs. unfold valid_var. rewrite Hcs; simpl.
  by apply in_tuple_age_idle.
Qed.

Lemma durations_explicit self (T : Time) :
  snapshot self = Some T →
  (var self = "age" → (durations self).2 = Ok (age (activity self) T))
  ∧ (var self = "idle" → (durations self).2 = Ok (idle (activity self) T)).
Proof.
  intros Hs. unfold durations; simpl. rewrite Hs; simpl. split.
  - intros Hv. by rewrite (eqb_age _ Hv).
  - intros Hv. destruct (eqb_idle _ Hv) as [-> ->]. done.
Qed.

Lemma durations_implicit self (t : Time) :
  snapshot self = None → maxend (activity self) = Ok t →
  (var self = "age" → (durations self).2 = Ok (age (activity self) t))
  ∧ (var self = "idle" → (durations self).2 = Ok (idle (activity self) t)).
Proof.
  intros Hs Hm. unfold durations; simpl. rewrite Hs, Hm; simpl. split.
  - intros Hv. by rewrite (eqb_age _ Hv).
  - intros Hv. destruct (eqb_idle _ Hv) as [-> ->]. done.
Qed.

Lemma after_call_var self (m : Method A) : var (after_call self m) = var self.
Proof.
  destruct m as [t|L|c|]; simpl; try reflexivity.
  destruct (modify c self) eqn:Hm; [by eapply modify_var | reflexivity].
Qed.

Lemma after_calls_var (ms : list (Method A)) self :
  var (after_calls self ms) = var self.
Proof.
  unfold after_calls. revert self.
  induction ms as [|m ms IH]; intros self; simpl; [done|].
  by rewrite IH, after_call_var.
Qed.

End DurationPersons_facts.

(** ** The modelled activity list *)

Example scenario_age :
  age alice_bob 365 = ({[ "Alice" := 365; "Bob" := 306 ]} : gmap string Z).
Proof. vm_compute. reflexivity. Qed.

Example scenario_idle :
  idle alice_bob 365 = ({[ "Alice" := 214; "Bob" := 306 ]} : gmap string Z).
Proof. vm_compute. reflexivity. Qed.

Example scenario_active :
  active alice_bob (Some 90) None = {[ "Alice" := [0; 151] ]}.
Proof. vm_compute. reflexivity. Qed.

Example scenario_maxend : maxend alice_bob = Ok 151.
Proof. vm_compute. reflexivity. Qed.

Lemma foldr_max_spec (rest : list Z) (t0 : Z) :
  let m := foldr Z.max t0 rest in
  m ∈ t0 :: rest ∧ Forall (λ x, x ≤ m) (t0 :: rest).
Proof.
  induction rest as [|x rest IH]; simpl.
  - split; [left | repeat constructor; lia].
  - destruct IH as [Hin Hall].
    apply Forall_cons in Hall as [H0 Hall].
    destruct (Z.max_spec x (foldr Z.max t0 rest)) as [[Hlt ->]|[Hle ->]].
    + split.
      * apply elem_of_cons in Hin as [->|Hin]; [left | right; by right].
      * repeat constructor; [lia|lia|done].
    + split; [right; left|].
      constructor; [lia|]. constructor; [lia|].
      eapply Forall_impl; [exact Hall|]. simpl; intros; lia.
Qed.

(** [maxend] returns an event of the list that no event is later than. *)
Lemma maxend_is_latest (L : gmap string (list Z)) (t : Z) :
  ActivityList.maxend L = Ok t →
  t ∈ ActivityList.events L ∧ Forall (λ x, x ≤ t) (ActivityList.events L).
Proof.
  unfold ActivityList.maxend, ActivityList.latest.
  destruct (ActivityList.events L) as [|t0 rest]; [done|].
  intros [= <-]. apply foldr_max_spec.
Qed.

Lemma events_nonempty (L : gmap string (list Z)) :
  ActivityList.inv L → L ≠ ∅ → ActivityList.events L ≠ [].
Proof.
  intros Hinv Hne. unfold ActivityList.events.
  destruct (map_to_list L) as [|[p ts] l] eqn:Hl.
  - by apply map_to_list_empty_iff in Hl.
  - assert (L !! p = Some ts) as Hp.
    { apply elem_of_map_to_list. rewrite Hl. set_solver. }
    destruct (Hinv p ts Hp) as [Hts _].
    simpl. destruct ts; [done|discriminate].
Qed.

Lemma maxend_nonempty (L : gmap string (list Z)) :
  ActivityList.inv L → L ≠ ∅ → ∃ t, ActivityList.maxend L = Ok t.
Proof.
  intros Hinv Hne. pose proof (events_nonempty L Hinv Hne) as He.
  unfold ActivityList.maxend, ActivityList.latest.
  destruct (ActivityList.events L); [done|]. by eexists.
Qed.

Lemma maxend_empty : ActivityList.maxend ∅ = Raise EmptyDomainError.
Proof. reflexivity. Qed.

Lemma in_window_intersect (a1 b1 a2 b2 : option Z) (ts : Z) :
  ActivityList.in_window (intersect_after a1 a2) (intersect_before b1 b2) ts
  = ActivityList.in_window a1 b1 ts && ActivityList.in_window a2 b2 ts.
Proof.
  unfold ActivityList.in_window.
  destruct a1 as [x1|], a2 as [x2|], b1 as [y1|], b2 as [y2|]; simpl;
    repeat match goal with
      | |- context [?a <=? ?b] => destruct (Z.leb_spec a b)
      | |- context [?a <? ?b] => destruct (Z.ltb_spec a b)
      end; simpl; try reflexivity; lia.
Qed.

Lemma has_event_in_intersect (a1 b1 a2 b2 : option Z) (ts : list Z) :
  ActivityList.has_event_in (intersect_after a1 a2) (intersect_before b1 b2) ts
    = true →
  ActivityList.has_event_in a1 b1 ts = true
  ∧ ActivityList.has_event_in a2 b2 ts = true.
Proof.
  unfold ActivityList.has_event_in. rewrite !existsb_exists.
  intros (x & Hx & Hw). rewrite in_window_intersect in Hw.
  apply andb_true_iff in Hw as [H1 H2]. split; exists x; done.
Qed.

Lemma has_event_in_single (a1 b1 a2 b2 : option Z) (ts : list Z) :
  length ts = 1%nat →
  ActivityList.has_event_in a1 b1 ts = true →
  ActivityList.has_event_in a2 b2 ts = true →
  ActivityList.has_event_in (intersect_after a1 a2) (intersect_before b1 b2) ts
    = true.
Proof.
  destruct ts as [|x [|y ts]]; try discriminate. intros _.
  unfold ActivityList.has_event_in; simpl.
  rewrite in_window_intersect, !orb_false_r. by intros -> ->.
Qed.

Lemma has_event_in_same_side (a1 b1 a2 b2 : option Z) (ts : list Z) :
  same_side a1 b1 a2 b2 →
  ActivityList.has_event_in a1 b1 ts = true →
  ActivityList.has_event_in a2 b2 ts = true →
  ActivityList.has_event_in (intersect_after a1 a2) (intersect_before b1 b2) ts
    = true.
Proof.
  unfold ActivityList.has_event_in. rewrite !existsb_exists.
  intros [[-> ->]|[-> ->]] (x & Hx & Hwx) (y & Hy & Hwy).
  - destruct a1 as [x1|], a2 as [x2|]; simpl; try (by eauto).
    destruct (Z.max_spec x1 x2) as [[Hlt ->]|[Hle ->]]; eauto.
  - destruct b1 as [y1|], b2 as [y2|]; simpl; try (by eauto).
    destruct (Z.min_spec y1 y2) as [[Hlt ->]|[Hle ->]]; eauto.
Qed.

(** ** Claims about DurationPersons *)

Section DurationPersons_claims.

Context {A D : Type} `{ActivitySource A D}.

Implicit Types (self target : DurationPersons A) (c : DurationCondition).

(** C2. A DurationPersons object constructed with a condition list that
    contains [SnapshotCondition(T)], no later condition setting the snapshot
    again, has snapshot [T]; its [durations()] returns [activity.age(T)] when
    the variable is "age" and [activity.idle(T)] when it is "idle", and the
    result is the same whatever [maxend()] would return or raise. *)
Theorem C2_durations_with_snapshot_condition (v : string) (L : A)
  (pre post : list DurationCondition) (T : Time) self :
  Forall not_snapshot post →
  DurationPersons_init v L (pre ++ SnapshotCondition T :: post) = Ok self →
  snapshot self = Some T
  ∧ (v = "age" ∨ v = "idle")
  ∧ (v = "age" → (durations self).2 = Ok (age (activity self) T))
  ∧ (v = "idle" → (durations self).2 = Ok (idle (activity self) T))
  ∧ (∀ maxend' : A → result Time,
       (@durations A D (with_maxend _ maxend') self).2 = (durations self).2).
Proof.
  intros Hpost [Hv Hcs]%DurationPersons_init_Ok.
  pose proof (apply_conditions_var _ _ _ Hcs) as Hvar; simpl in Hvar.
  unfold apply_conditions in Hcs. rewrite for_each_app in Hcs.
  destruct (for_each _ pre _) as [s1|e] eqn:Hpre; simpl in Hcs; [|done].
  apply (apply_conditions_snapshot post) in Hcs; [|done].
  simpl in Hcs.
  destruct (durations_explicit self T Hcs) as [Hage Hidle].
  rewrite Hvar in Hage, Hidle.
  repeat split; [done|by apply in_tuple_age_idle|done|done|].
  intros maxend'. unfold durations; simpl. by rewrite Hcs.
Qed.

(** C4, on the code.  [DurationPersons.__init__] builds the message of its
    exception from [self.var], which is bound only on the next line: for
    every variable other than "age" and "idle" the construction raises an
    AttributeError for [var], not an exception naming the variable. *)
Theorem C4_invalid_variable_raises_attribute_error (v : string) (L : A)
  (cs : list DurationCondition) :
  in_tuple v ["age"; "idle"] = false →
  DurationPersons_init v L cs = Raise (AttributeError "var")
  ∧ DurationPersons_init v L cs
    ≠ Raise (PyException ("Not a valid variable: " +:+ v)).
Proof.
  intros Hv. unfold DurationPersons_init. rewrite Hv; simpl. done.
Qed.

(** C9. [SnapshotCondition.modify] changes only the snapshot of its target,
    [ActiveCondition.modify] changes only its activity, and no sequence of
    method calls made on a DurationPersons object changes its variable. *)
Theorem C9_conditions_frame target :
  (∀ date target',
     modify (SnapshotCondition date) target = Ok target' →
     activity target' = activity target ∧ var target' = var target
     ∧ snapshot target' = Some date)
  ∧ (∀ after before target',
       modify (ActiveCondition after before) target = Ok target' →
       snapshot target' = snapshot target ∧ var target' = var target
       ∧ activity target' = active (activity target) after before)
  ∧ (∀ time, var (set_snapshot time target) = var target)
  ∧ (∀ L, var (set_activity L target) = var target)
  ∧ var (durations target).1 = var target
  ∧ (∀ cs target',
       apply_conditions cs target = Ok target' → var target' = var target)
  ∧ (∀ ms : list (Method A), var (after_calls target ms) = var target).
Proof.
  split; [|split; [|split; [|split; [|split; [|split]]]]].
  - intros date target' [= <-]. done.
  - intros after before target' [= <-]. done.
  - done.
  - done.
  - done.
  - intros cs target'. apply apply_conditions_var.
  - intros ms. apply after_calls_var.
Qed.

(** C10. An object that [DurationPersons.__init__] returned has "age" or
    "idle" as its variable, and so has every object reached from it by
    [set_snapshot], [set_activity], the conditions and [durations]; on such
    an object [durations()] never reaches the end of its [if]/[elif] with the
    result unassigned: the only exception it can raise is the one [maxend()]
    raised, and once the reference time is known exactly one of the two
    branches gives the result. *)
Theorem C10_variable_invariant (v : string) (L : A)
  (cs : list DurationCondition) self :
  DurationPersons_init v L cs = Ok self →
  valid_var self
  ∧ (∀ (s : DurationPersons A) time,
       valid_var s → valid_var (set_snapshot time s))
  ∧ (∀ (s : DurationPersons A) L',
       valid_var s → valid_var (set_activity L' s))
  ∧ (∀ (s s' : DurationPersons A) c,
       valid_var s → modify c s = Ok s' → valid_var s')
  ∧ (∀ ms : list (Method A),
       let s := after_calls self ms in
       valid_var s
       ∧ (∀ e, (durations s).2 = Raise e →
            snapshot s = None ∧ maxend (activity s) = Raise e)
       ∧ (∀ t,
            match snapshot s with
            | None => maxend (activity s)
            | Some t' => Ok t'
            end = Ok t →
            (String.eqb (var s) "age" = true
             ∧ (durations s).2 = Ok (age (activity s) t))
            ∨ (String.eqb (var s) "age" = false
               ∧ String.eqb (var s) "idle" = true
               ∧ (durations s).2 = Ok (idle (activity s) t)))).
Proof.
  intros Hinit. pose proof (DurationPersons_init_valid _ _ _ _ Hinit) as Hself.
  split; [done|]. split; [done|]. split; [done|].
  split.
  { intros s s' c Hs Hm. unfold valid_var. by rewrite (modify_var _ _ _ Hm). }
  intros ms s.
  assert (valid_var s) as Hs.
  { unfold valid_var, s. by rewrite after_calls_var. }
  split; [done|]. unfold durations; simpl. split.
  - intros e.
    destruct (snapshot s) as [t|]; simpl.
    + destruct Hs as [Hs|Hs]; rewrite Hs; discriminate.
    + destruct (maxend (activity s)) as [t|e']; simpl.
      * destruct Hs as [Hs|Hs]; rewrite Hs; discriminate.
      * by intros [= ->].
  - intros t ->; simpl.
    destruct Hs as [Hs|Hs]; rewrite Hs; simpl; [by left|by right].
Qed.

End DurationPersons_claims.

(** Without the invariant the end of the [if]/[elif] is reached: the model
    of [durations] does have the path that C10 excludes. *)
Example durations_fall_through :
  (durations (mkDurationPersons alice_bob "length" (Some 365))).2
  = Raise (UnboundLocalError "durations").
Proof. reflexivity. Qed.

(** ** Claims about DurationPersons over the modelled ActivityList *)

(** C1. For a DurationPersons object with no snapshot set and a non-empty
    activity list, [maxend()] returns a time [t] and [durations()] returns
    [activity.age(t)] when the variable is "age" and [activity.idle(t)] when
    it is "idle". *)
Theorem C1_durations_without_snapshot
  (self : DurationPersons (gmap string (list Z))) :
  snapshot self = None →
  ActivityList.inv (activity self) →
  activity self ≠ ∅ →
  ∃ t, maxend (activity self) = Ok t
    ∧ (var self = "age" → (durations self).2 = Ok (age (activity self) t))
    ∧ (var self = "idle" → (durations self).2 = Ok (idle (activity self) t)).
Proof.
  intros Hs Hinv Hne.
  destruct (maxend_nonempty _ Hinv Hne) as [t Ht].
  exists t. split; [exact Ht|]. by apply durations_implicit.
Qed.

(** C3, as the code has it.  Applying [ActiveCondition(A1,B1)] and then
    [ActiveCondition(A2,B2)] keeps exactly the persons that have a timestamp
    in the first window and a timestamp, maybe another one, in the second.
    The activity list of the single condition with the intersected window is
    contained in it, and the two are equal when every person has one
    timestamp, or when both windows are bounded on the same side only. *)
Theorem C3_two_active_conditions
  (self : DurationPersons (gmap string (list Z))) (A1 B1 A2 B2 : option Time) :
  ∃ both one,
    apply_conditions [ActiveCondition A1 B1; ActiveCondition A2 B2] self
      = Ok both
    ∧ apply_conditions
        [ActiveCondition (intersect_after A1 A2) (intersect_before B1 B2)] self
      = Ok one
    ∧ (∀ p ts,
         activity both !! p = Some ts ↔
         activity self !! p = Some ts
         ∧ ActivityList.has_event_in A1 B1 ts = true
         ∧ ActivityList.has_event_in A2 B2 ts = true)
    ∧ activity one ⊆ activity both
    ∧ (map_Forall (λ _ ts, length ts = 1%nat) (activity self) →
       activity both = activity one)
    ∧ (same_side A1 B1 A2 B2 → activity both = activity one).
Proof.
  eexists _, _. split; [reflexivity|]. split; [reflexivity|].
  simpl. unfold ActivityList.active.
  assert (∀ p ts,
    filter (λ kv : string * list Z, ActivityList.has_event_in A2 B2 kv.2 = true)
      (filter (λ kv : string * list Z,
         ActivityList.has_event_in A1 B1 kv.2 = true) (activity self)) !! p
      = Some ts ↔
    activity self !! p = Some ts
    ∧ ActivityList.has_event_in A1 B1 ts = true
    ∧ ActivityList.has_event_in A2 B2 ts = true) as Hboth.
  { intros p ts. rewrite !map_lookup_filter_Some. simpl. tauto. }
  split; [exact Hboth|].
  assert (∀ p ts,
    (activity self !! p = Some ts →
     ActivityList.has_event_in A1 B1 ts = true →
     ActivityList.has_event_in A2 B2 ts = true →
     ActivityList.has_event_in (intersect_after A1 A2)
       (intersect_before B1 B2) ts = true) →
    filter (λ kv : string * list Z, ActivityList.has_event_in A2 B2 kv.2 = true)
      (filter (λ kv : string * list Z,
         ActivityList.has_event_in A1 B1 kv.2 = true) (activity self)) !! p
      = Some ts →
    filter (λ kv : string * list Z,
      ActivityList.has_event_in (intersect_after A1 A2)
        (intersect_before B1 B2) kv.2 = true) (activity self) !! p = Some ts)
    as Hback.
  { intros p ts Himp (Hp & H1 & H2)%Hboth.
    apply map_lookup_filter_Some. split; [done|]. simpl. by apply Himp. }
  assert (∀ p ts,
    filter (λ kv : string * list Z,
      ActivityList.has_event_in (intersect_after A1 A2)
        (intersect_before B1 B2) kv.2 = true) (activity self) !! p = Some ts →
    filter (λ kv : string * list Z, ActivityList.has_event_in A2 B2 kv.2 = true)
      (filter (λ kv : string * list Z,
         ActivityList.has_event_in A1 B1 kv.2 = true) (activity self)) !! p
      = Some ts) as Hforth.
  { intros p ts [Hp Hw]%map_lookup_filter_Some. simpl in Hw.
    apply has_event_in_intersect in Hw as [H1 H2]. by apply Hboth. }
  split; [|split].
  - apply map_subseteq_spec. exact Hforth.
  - intros Hone. apply map_eq. intros p. apply option_eq. intros ts.
    split; [|apply Hforth]. apply Hback.
    intros Hp. apply has_event_in_single. exact (Hone p ts Hp).
  - intros Hside. apply map_eq. intros p. apply option_eq. intros ts.
    split; [|apply Hforth]. apply Hback.
    intros _. by apply has_event_in_same_side.
Qed.

(** C3 as stated fails: Carol has events at 1 and 10; the windows [0, 5) and
    [8, 12) each contain one of them, so both conditions keep her, while the
    intersected window, [8, 5), is empty and keeps nobody. *)
Lemma C3_counterexample :
  let self := mkDurationPersons carol "age" None in
  activity (ActiveCondition_modify (Some 8) (Some 12)
              (ActiveCondition_modify (Some 0) (Some 5) self)) = carol
  ∧ activity (ActiveCondition_modify
                (intersect_after (Some 0) (Some 8))
                (intersect_before (Some 5) (Some 12)) self) = ∅
  ∧ activity (ActiveCondition_modify (Some 8) (Some 12)
                (ActiveCondition_modify (Some 0) (Some 5) self))
    ≠ activity (ActiveCondition_modify
                  (intersect_after (Some 0) (Some 8))
                  (intersect_before (Some 5) (Some 12)) self).
Proof.
  assert (carol ≠ (∅ : gmap string (list Z))) as Hne.
  { intros Heq. apply (f_equal (λ m, m !! "Carol")) in Heq.
    vm_compute in Heq. discriminate. }
  split; [vm_compute; reflexivity|].
  split; [vm_compute; reflexivity|].
  intros Heq. apply Hne. etrans; [|etrans; [exact Heq|]];
    vm_compute; reflexivity.
Qed.

(** C8. With no snapshot set, [durations()] leaves the object as it was, so
    the snapshot stays unset; after [set_activity(L2)] the next [durations()]
    takes [L2.maxend()] as its reference time, and there is always an
    activity list [L2] whose [maxend()] is not the reference time of the
    first call. *)
Theorem C8_implicit_snapshot_is_not_stored
  (self : DurationPersons (gmap string (list Z))) :
  snapshot self = None →
  (durations self).1 = self
  ∧ snapshot (durations self).1 = None
  ∧ (∀ L2 t2,
       maxend L2 = Ok t2 →
       let self2 := set_activity L2 (durations self).1 in
       snapshot self2 = None
       ∧ (var self = "age" → (durations self2).2 = Ok (age L2 t2))
       ∧ (var self = "idle" → (durations self2).2 = Ok (idle L2 t2)))
  ∧ (∀ t1,
       maxend (activity self) = Ok t1 →
       ∃ L2 t2, ActivityList.inv L2 ∧ maxend L2 = Ok t2 ∧ t2 ≠ t1).
Proof.
  intros Hs. split; [reflexivity|]. split; [exact Hs|]. split.
  - intros L2 t2 Ht2 self2. split; [exact Hs|].
    apply (durations_implicit self2 t2); [exact Hs|exact Ht2].
  - intros t1 _. exists {[ "p" := [t1 + 1] ]}, (t1 + 1). split; [|split].
    + apply map_Forall_singleton. split; [done|]. repeat constructor.
    + simpl. unfold ActivityList.maxend, ActivityList.events.
      by rewrite map_to_list_singleton.
    + lia.
Qed.

(** ** Claims about ActivityPersons *)

Lemma unknown_variable_tests (v : string) :
  in_tuple v activity_variables = false →
  in_tuple v ["list_authors"; "list_uauthors"] = false
  ∧ in_tuple v ["list_committers"; "list_ucommitters"] = false.
Proof.
  unfold in_tuple, activity_variables; simpl.
  destruct (String.eqb v "list_authors"), (String.eqb v "list_committers"),
    (String.eqb v "list_uauthors"), (String.eqb v "list_ucommitters");
    simpl; intros; split; congruence.
Qed.

Lemma activity_variables_cases (v : string) :
  in_tuple v activity_variables = true →
  v = "list_authors" ∨ v = "list_committers"
  ∨ v = "list_uauthors" ∨ v = "list_ucommitters".
Proof.
  unfold in_tuple, activity_variables; simpl.
  rewrite !orb_true_iff, !String.eqb_eq. intuition discriminate.
Qed.

Section ActivityPersons_claims.

Context {Session Query : Type} `{SCMQuery Session Query}.

Implicit Types (conds : list (QueryCondition Query)) (q : Query).

Lemma filters_run conds q (log : list Call) :
  traced_for_each
    (λ q condition,
       call (CallFilter (condition_name condition))
            (condition_filter condition q))
    conds q log
  = (log ++ filter_calls conds,
     Ok (foldl (λ q condition, condition_filter condition q) q conds)).
Proof.
  revert q log. induction conds as [|c conds IH]; intros q log; simpl.
  - by rewrite app_nil_r.
  - unfold mbind, Traced_bind, call; simpl.
    rewrite IH. by rewrite <- app_assoc.
Qed.

(** The constructor once it has its session [s], for each of the four
    variables. *)
Lemma ActivityPersons_init_session (v : string) conds
  (session : option Session) (database : option string) (echo : bool)
  (s : Session) :
  obtained_session session database echo = Some s →
  ∀ (persons : string) (projection : Query → Query) (c : Call),
    (v = "list_authors" ∧ persons = "authors"
     ∧ projection = select_personsdata persons
     ∧ c = CallSelectPersonsdata persons)
    ∨ (v = "list_committers" ∧ persons = "committers"
       ∧ projection = select_personsdata persons
       ∧ c = CallSelectPersonsdata persons)
    ∨ (v = "list_uauthors" ∧ persons = "authors"
       ∧ projection = select_personsdata_uid persons
       ∧ c = CallSelectPersonsdataUid persons)
    ∨ (v = "list_ucommitters" ∧ persons = "committers"
       ∧ projection = select_personsdata_uid persons
       ∧ c = CallSelectPersonsdataUid persons) →
    ActivityPersons_init v conds session database echo []
    = (session_calls session database echo
         ++ [CallSessionQuery; c; CallSelectCommitsperiod; CallGroupByPerson]
         ++ filter_calls conds,
       Ok (mkActivityPersons s (built_query s projection conds))).
Proof.
  intros Hs persons projection c Hcase.
  unfold ActivityPersons_init, obtained_session, session_calls, built_query in *.
  destruct session as [s0|]; [|destruct database as [db|]; [|done]];
    injection Hs as <-;
    destruct Hcase as [(-> & -> & -> & ->)|[(-> & -> & -> & ->)|
      [(-> & -> & -> & ->)|(-> & -> & -> & ->)]]];
    unfold mbind, Traced_bind, mret, Traced_ret, call; simpl;
    rewrite filters_run; reflexivity.
Qed.

(** C5, as the code has it.  For a variable that is none of the four, and
    with a session or a database given, the constructor raises the exception
    for an unknown variable, naming it, before it builds any query; by then
    it has obtained its session: when no session was passed, [buildSession]
    has been called, once, and nothing else. *)
Theorem C5_unknown_variable (v : string) conds
  (session : option Session) (database : option string) (echo : bool)
  (s : Session) :
  in_tuple v activity_variables = false →
  obtained_session session database echo = Some s →
  ActivityPersons_init v conds session database echo []
  = (session_calls session database echo, Raise (unknown_variable_error v))
  ∧ existsb builds_query (session_calls session database echo) = false
  ∧ (session ≠ None → session_calls session database echo = [])
  ∧ (session = None →
     ∃ db, database = Some db
       ∧ session_calls session database echo = [CallBuildSession db echo]).
Proof.
  intros [Hv1 Hv2]%unknown_variable_tests Hs.
  unfold ActivityPersons_init, obtained_session, session_calls in *.
  rewrite Hv1, Hv2.
  destruct session as [s0|]; [|destruct database as [db|]; [|done]];
    unfold mbind, Traced_bind, mret, Traced_ret, call, raise; simpl.
  - split; [done|]. split; [done|]. split; [done|]. by intros [=].
  - split; [done|]. split; [done|]. split; [done|]. intros _. by exists db.
Qed.

(** C6. With neither a session nor a database, the constructor raises the
    configuration exception, whatever the variable, the conditions and the
    echo flag are, and calls nothing before. *)
Theorem C6_neither_session_nor_database (v : string) conds (echo : bool) :
  ActivityPersons_init v conds None None echo []
  = ([], Raise configuration_error).
Proof. reflexivity. Qed.

(** C7. For each of the four variables and every list of conditions, the
    constructor, once it has its session, builds the query of that session
    with the persons data of "authors" for "list_authors" and of
    "committers" for "list_committers", the persons data by unified id of
    "authors" for "list_uauthors" and of "committers" for
    "list_ucommitters", then the commits period and the grouping by person,
    then the filter of every condition in list order, each on the query so
    far; the calls are made in that order. *)
Theorem C7_query_construction conds
  (session : option Session) (database : option string) (echo : bool)
  (s : Session) :
  obtained_session session database echo = Some s →
  let init v := ActivityPersons_init v conds session database echo [] in
  let calls c :=
    session_calls session database echo
    ++ [CallSessionQuery; c; CallSelectCommitsperiod; CallGroupByPerson]
    ++ filter_calls conds in
  init "list_authors"
  = (calls (CallSelectPersonsdata "authors"),
     Ok (mkActivityPersons s
           (built_query s (select_personsdata "authors") conds)))
  ∧ init "list_committers"
    = (calls (CallSelectPersonsdata "committers"),
       Ok (mkActivityPersons s
             (built_query s (select_personsdata "committers") conds)))
  ∧ init "list_uauthors"
    = (calls (CallSelectPersonsdataUid "authors"),
       Ok (mkActivityPersons s
             (built_query s (select_personsdata_uid "authors") conds)))
  ∧ init "list_ucommitters"
    = (calls (CallSelectPersonsdataUid "committers"),
       Ok (mkActivityPersons s
             (built_query s (select_personsdata_uid "committers") conds)))
  ∧ (∀ v, in_tuple v activity_variables = true →
       v = "list_authors" ∨ v = "list_committers"
       ∨ v = "list_uauthors" ∨ v = "list_ucommitters").
Proof.
  intros Hs init calls. unfold init, calls.
  split; [|split; [|split; [|split]]].
  - eapply ActivityPersons_init_session; [exact Hs|]. left. done.
  - eapply ActivityPersons_init_session; [exact Hs|]. right; left. done.
  - eapply ActivityPersons_init_session; [exact Hs|]. right; right; left. done.
  - eapply ActivityPersons_init_session; [exact Hs|]. right; right; right. done.
  - apply activity_variables_cases.
Qed.

End ActivityPersons_claims.

(** C5 as stated fails: with a database and no session, [buildSession] is
    called before the unknown variable is reported; with neither, the
    exception is the configuration one. *)
Lemma C5_counterexample :
  in_tuple "list_foo" activity_variables = false
  ∧ ActivityPersons_init "list_foo" ([] : list (QueryCondition SymQuery))
      None (Some "mysql://localhost/cvsanaly") false []
    = ([CallBuildSession "mysql://localhost/cvsanaly" false],
       Raise (unknown_variable_error "list_foo"))
  ∧ (ActivityPersons_init "list_foo" ([] : list (QueryCondition SymQuery))
       None (Some "mysql://localhost/cvsanaly") false []).1 ≠ []
  ∧ ActivityPersons_init "list_foo" ([] : list (QueryCondition SymQuery))
      None None false []
    = ([], Raise configuration_error)
  ∧ configuration_error ≠ unknown_variable_error "list_foo".
Proof.
  split; [reflexivity|]. split; [reflexivity|]. split; [discriminate|].
  split; [reflexivity|discriminate].
Qed.

(** ** The claims on concrete input *)

Lemma alice_bob_inv : ActivityList.inv alice_bob.
Proof.
  unfold ActivityList.inv, alice_bob.
  apply map_Forall_insert_2.
  - split; [discriminate | repeat constructor; lia].
  - apply map_Forall_singleton. split; [discriminate | repeat constructor].
Defined.

Lemma alice_bob_nonempty : alice_bob ≠ ∅.
Proof.
  intros Heq. apply (f_equal (λ m : gmap string (list Z), m !! "Bob")) in Heq.
  vm_compute in Heq. discriminate.
Defined.

Lemma C1_witness :
  ∃ t, maxend alice_bob = Ok t
    ∧ (durations (mkDurationPersons alice_bob "age" None)).2
      = Ok (age alice_bob t).
Proof.
  destruct (C1_durations_without_snapshot
              (mkDurationPersons alice_bob "age" None))
    as (t & Ht & Hage & _).
  - reflexivity.
  - exact alice_bob_inv.
  - exact alice_bob_nonempty.
  - exists t. split; [exact Ht | apply Hage; reflexivity].
Defined.

Lemma C2_witness :
  (durations
     (mkDurationPersons
        (active (active alice_bob (Some 90) None) None (Some 400))
        "idle" (Some 365))).2
  = Ok (idle (active (active alice_bob (Some 90) None) None (Some 400)) 365).
Proof.
  refine (proj1 (proj2 (proj2 (proj2
    (C2_durations_with_snapshot_condition "idle" alice_bob
       [ActiveCondition (Some 90) None] [ActiveCondition None (Some 400)] 365
       (mkDurationPersons
          (active (active alice_bob (Some 90) None) None (Some 400))
          "idle" (Some 365))
       _ _)))) _).
  - repeat constructor.
  - vm_compute; reflexivity.
  - vm_compute; reflexivity.
Defined.

Lemma C3_witness :
  ∃ both one,
    apply_conditions [ActiveCondition (Some 0) None; ActiveCondition (Some 90) None]
      (mkDurationPersons alice_bob "age" None) = Ok both
    ∧ apply_conditions
        [ActiveCondition (intersect_after (Some 0) (Some 90))
           (intersect_before None None)]
        (mkDurationPersons alice_bob "age" None) = Ok one
    ∧ activity both = activity one.
Proof.
  destruct (C3_two_active_conditions (mkDurationPersons alice_bob "age" None)
              (Some 0) None (Some 90) None)
    as (both & one & Hboth & Hone & _ & _ & _ & Hside).
  exists both, one. split; [exact Hboth|]. split; [exact Hone|].
  apply Hside. left. split; reflexivity.
Defined.

Lemma C4_witness :
  DurationPersons_init "length" alice_bob [SnapshotCondition 365]
  = Raise (AttributeError "var").
Proof.
  apply (C4_invalid_variable_raises_attribute_error "length" alice_bob
           [SnapshotCondition 365]).
  reflexivity.
Defined.

Lemma C5_witness :
  ActivityPersons_init "length" [period_condition]
    None (Some "mysql://localhost/cvsanaly") true []
  = ([CallBuildSession "mysql://localhost/cvsanaly" true],
     Raise (unknown_variable_error "length")).
Proof.
  apply (C5_unknown_variable "length" [period_condition]
           None (Some "mysql://localhost/cvsanaly") true
           (BuiltSession "mysql://localhost/cvsanaly" true)).
  - vm_compute; reflexivity.
  - vm_compute; reflexivity.
Defined.

Lemma C7_witness :
  ActivityPersons_init "list_ucommitters"
    [period_condition; nomerges_condition]
    (Some (GivenSession "s")) None false []
  = ([CallSessionQuery; CallSelectPersonsdataUid "committers";
      CallSelectCommitsperiod; CallGroupByPerson;
      CallFilter "period"; CallFilter "nomerges"],
     Ok (mkActivityPersons (GivenSession "s")
           (Where "not a merge"
              (Where "date >= start"
                 (GroupByPerson
                    (SelectCommitsperiod
                       (SelectPersonsdataUid "committers"
                          (SessionQuery (GivenSession "s"))))))))).
Proof.
  destruct (C7_query_construction [period_condition; nomerges_condition]
              (Some (GivenSession "s")) None false (GivenSession "s"))
    as (_ & _ & _ & Hucommitters & _).
  - reflexivity.
  - exact Hucommitters.
Defined.

Lemma C8_witness :
  (durations (mkDurationPersons alice_bob "age" None)).1
  = mkDurationPersons alice_bob "age" None
  ∧ (durations
       (set_activity carol
          (durations (mkDurationPersons alice_bob "age" None)).1)).2
    = Ok (age carol 10).
Proof.
  destruct (C8_implicit_snapshot_is_not_stored
              (mkDurationPersons alice_bob "age" None))
    as (Hsame & _ & Hnext & _).
  - vm_compute; reflexivity.
  - split; [exact Hsame|].
    apply (Hnext carol 10); vm_compute; reflexivity.
Defined.

Lemma C9_witness :
  var (SnapshotCondition_modify 365 (mkDurationPersons alice_bob "age" None))
  = "age"
  ∧ activity
      (SnapshotCondition_modify 365 (mkDurationPersons alice_bob "age" None))
    = alice_bob.
Proof.
  destruct (C9_conditions_frame (mkDurationPersons alice_bob "age" None))
    as (Hsnap & _).
  destruct (Hsnap 365
              (SnapshotCondition_modify 365
                 (mkDurationPersons alice_bob "age" None)))
    as (Hact & Hvar & _).
  - vm_compute; reflexivity.
  - split; [exact Hvar | exact Hact].
Defined.

Lemma C10_witness :
  valid_var (mkDurationPersons alice_bob "idle" (Some 365))
  ∧ (durations
       (after_calls (mkDurationPersons alice_bob "idle" (Some 365))
          [Method_set_activity carol; Method_durations])).2
    = Ok (idle carol 365).
Proof.
  destruct (C10_variable_invariant "idle" alice_bob [SnapshotCondition 365]
              (mkDurationPersons alice_bob "idle" (Some 365)))
    as (Hvalid & _ & _ & _ & Hafter).
  - vm_compute; reflexivity.
  - split; [exact Hvalid|].
    destruct (Hafter [Method_set_activity carol; Method_durations])
      as (_ & _ & Hbranch).
    destruct (Hbranch 365) as [[Hage _]|(_ & _ & Hidle)].
    + vm_compute; reflexivity.
    + discriminate Hage.
    + exact Hidle.
Defined.

(** * Further properties of the constructors and of [durations] *)

Section DurationPersons_construction.

Context {A D : Type} `{ActivitySource A D}.

Implicit Types (self : DurationPersons A) (c : DurationCondition).

Lemma apply_conditions_normal_form (cs : list DurationCondition) self :
  Forall has_modify cs →
  apply_conditions cs self
  = Ok {| activity := narrow (activity self) (windows cs);
          var := var self;
          snapshot := last_snapshot cs (snapshot self) |}.
Proof.
  unfold apply_conditions, narrow. intros Hcs. revert self.
  induction Hcs as [|c cs Hc _ IH]; intros self; simpl.
  - by destruct self.
  - destruct c as [|date|after before]; simpl in *; [done| |]; by rewrite IH.
Qed.

Lemma apply_conditions_root (cs : list DurationCondition) self :
  RootCondition ∈ cs →
  apply_conditions cs self = Raise (AttributeError "modify").
Proof.
  unfold apply_conditions. revert self.
  induction cs as [|c cs IH]; intros self Hin; [by apply elem_of_nil in Hin|].
  destruct c as [|date|after before]; simpl; [done| |];
    apply IH; apply elem_of_cons in Hin as [Heq|Hin]; done.
Qed.

Lemma has_modify_or_root (cs : list DurationCondition) :
  Forall has_modify cs ∨ RootCondition ∈ cs.
Proof.
  induction cs as [|c cs [IH|IH]].
  - left. constructor.
  - destruct c; [right; left | left; by constructor | left; by constructor].
  - right. by right.
Qed.

Lemma has_modify_not_root (cs : list DurationCondition) :
  Forall has_modify cs → RootCondition ∈ cs → False.
Proof.
  intros Hcs Hin. rewrite Forall_forall in Hcs. exact (Hcs _ Hin).
Qed.

(** X1. With "age" or "idle" and conditions that all have a [modify], the
    constructor returns the object whose activity is the given one narrowed
    by the windows of the ActiveConditions, in list order, whose variable is
    the given one and whose snapshot is the date of the last
    SnapshotCondition, or unset when there is none. *)
Theorem X1_constructed_object (v : string) (L : A)
  (cs : list DurationCondition) :
  in_tuple v ["age"; "idle"] = true →
  Forall has_modify cs →
  DurationPersons_init v L cs
  = Ok {| activity := narrow L (windows cs);
          var := v;
          snapshot := last_snapshot cs None |}.
Proof.
  intros Hv Hcs. unfold DurationPersons_init. rewrite Hv; simpl.
  by rewrite apply_conditions_normal_form.
Qed.

(** X2. A SnapshotCondition and an ActiveCondition that follow each other in
    the list of conditions can be swapped: the constructor returns the same
    object, or raises the same exception. *)
Theorem X2_snapshot_and_active_commute (v : string) (L : A)
  (pre post : list DurationCondition) (date : Time)
  (after before : option Time) :
  DurationPersons_init v L
    (pre ++ SnapshotCondition date :: ActiveCondition after before :: post)
  = DurationPersons_init v L
      (pre ++ ActiveCondition after before :: SnapshotCondition date :: post).
Proof.
  unfold DurationPersons_init.
  destruct (in_tuple v ["age"; "idle"]); simpl; [|reflexivity].
  unfold apply_conditions. rewrite !for_each_app.
  destruct (for_each _ pre _) as [s1|e]; reflexivity.
Qed.

(** X3. The constructor raises an AttributeError or returns: for [var] when
    the variable is neither "age" nor "idle", for [modify] when the variable
    is one of the two and a condition of the root class is in the list; it
    returns an object exactly when the variable is one of the two and every
    condition has a [modify].  It never raises the exception that names the
    variable. *)
Theorem X3_constructor_outcome (v : string) (L : A)
  (cs : list DurationCondition) :
  (∀ e, DurationPersons_init v L cs = Raise e →
        e = AttributeError "var" ∨ e = AttributeError "modify")
  ∧ (DurationPersons_init v L cs = Raise (AttributeError "modify") ↔
     in_tuple v ["age"; "idle"] = true ∧ RootCondition ∈ cs)
  ∧ ((∃ self, DurationPersons_init v L cs = Ok self) ↔
     in_tuple v ["age"; "idle"] = true ∧ Forall has_modify cs).
Proof.
  unfold DurationPersons_init.
  destruct (in_tuple v ["age"; "idle"]) eqn:Hv; simpl.
  - destruct (has_modify_or_root cs) as [Hcs|Hroot].
    + rewrite (apply_conditions_normal_form cs _ Hcs).
      split; [discriminate|]. split.
      * split; [discriminate|]. intros [_ Hroot].
        destruct (has_modify_not_root cs Hcs Hroot).
      * split; [done|]. intros _. by eexists.
    + rewrite (apply_conditions_root cs _ Hroot).
      split; [intros e [= <-]; by right|]. split; [done|].
      split; [by intros [self ?]|]. intros [_ Hcs].
      destruct (has_modify_not_root cs Hcs Hroot).
  - split; [intros e [= <-]; by left|]. split.
    + split; [discriminate|]. by intros [? _].
    + split; [by intros [self ?]|]. by intros [? _].
Qed.

(** X4. On an object whose variable is "age" or "idle", [durations()] raises
    exactly when no snapshot is set and [maxend()] raises, and then it raises
    the same exception; with a snapshot set it always returns. *)
Theorem X4_durations_raises self (e : PyError) :
  valid_var self →
  ((durations self).2 = Raise e ↔
   snapshot self = None ∧ maxend (activity self) = Raise e)
  ∧ (∀ t, snapshot self = Some t → ∃ d, (durations self).2 = Ok d).
Proof.
  intros Hvar. unfold durations; simpl.
  destruct (snapshot self) as [t0|]; simpl.
  - split.
    + split; [|by intros [? _]].
      destruct Hvar as [Hv|Hv]; rewrite Hv; discriminate.
    + intros t _. destruct Hvar as [Hv|Hv]; rewrite Hv; by eexists.
  - split; [|discriminate].
    destruct (maxend (activity self)) as [t|e']; simpl.
    + split; [|by intros [_ ?]].
      destruct Hvar as [Hv|Hv]; rewrite Hv; discriminate.
    + split; [by intros [= ->] | by intros [_ [= ->]]].
Qed.

End DurationPersons_construction.

Section ActivityPersons_construction.

Context {Session Query : Type} `{SCMQuery Session Query}.

Implicit Types (conds : list (QueryCondition Query)).

Lemma ActivityPersons_init_unknown (v : string) conds
  (session : option Session) (database : option string) (echo : bool)
  (s : Session) :
  in_tuple v activity_variables = false →
  obtained_session session database echo = Some s →
  ActivityPersons_init v conds session database echo []
  = (session_calls session database echo, Raise (unknown_variable_error v)).
Proof.
  intros [Hv1 Hv2]%unknown_variable_tests Hs.
  unfold ActivityPersons_init, obtained_session, session_calls in *.
  rewrite Hv1, Hv2.
  destruct session as [s0|]; [|destruct database as [db|]; [|done]];
    reflexivity.
Qed.

Lemma ActivityPersons_init_known (v : string)
  (session : option Session) (database : option string) (echo : bool)
  (s : Session) :
  in_tuple v activity_variables = true →
  obtained_session session database echo = Some s →
  ∃ (projection : Query → Query) (c : Call), ∀ conds,
    ActivityPersons_init v conds session database echo []
    = (session_calls session database echo
         ++ [CallSessionQuery; c; CallSelectCommitsperiod; CallGroupByPerson]
         ++ filter_calls conds,
       Ok (mkActivityPersons s (built_query s projection conds))).
Proof.
  intros Hv Hs.
  destruct (activity_variables_cases v Hv) as [-> | [-> | [-> | ->]]].
  - exists (select_personsdata "authors"), (CallSelectPersonsdata "authors").
    intros conds.
    eapply ActivityPersons_init_session; [exact Hs|]. left. done.
  - exists (select_personsdata "committers"),
      (CallSelectPersonsdata "committers").
    intros conds.
    eapply ActivityPersons_init_session; [exact Hs|]. right; left. done.
  - exists (select_personsdata_uid "authors"),
      (CallSelectPersonsdataUid "authors").
    intros conds.
    eapply ActivityPersons_init_session; [exact Hs|]. right; right; left. done.
  - exists (select_personsdata_uid "committers"),
      (CallSelectPersonsdataUid "committers").
    intros conds.
    eapply ActivityPersons_init_session; [exact Hs|]. right; right; right. done.
Qed.



(** X6. Appending conditions to the list given to the constructor filters
    the query further: the query for [conds1 ++ conds2] is the query for
    [conds1] with the filters of [conds2] applied to it in list order, and
    the calls are those for [conds1] followed by the filters of [conds2]. *)
Theorem X6_conditions_append (v : string) conds1 conds2
  (given : option Session) (database : option string) (echo : bool)
  (calls1 : list Call) (ap1 : ActivityPersons Session Query) :
  ActivityPersons_init v conds1 given database echo [] = (calls1, Ok ap1) →
  ActivityPersons_init v (conds1 ++ conds2) given database echo []
  = (calls1 ++ filter_calls conds2,
     Ok (mkActivityPersons (session ap1)
           (foldl (λ q condition, condition_filter condition q)
              (query ap1) conds2))).
Proof.
  intros Hinit.
  destruct (obtained_session given database echo) as [s|] eqn:Hs.
  - destruct (in_tuple v activity_variables) eqn:Hv.
    + destruct (ActivityPersons_init_known v _ _ _ s Hv Hs)
        as (projection & c & Hknown).
      rewrite (Hknown conds1) in Hinit. injection Hinit as <- <-.
      rewrite (Hknown (conds1 ++ conds2)). simpl.
      unfold built_query, filter_calls.
      rewrite foldl_app, map_app, <- !app_assoc. reflexivity.
    + rewrite (ActivityPersons_init_unknown v conds1 _ _ _ s Hv Hs) in Hinit.
      discriminate Hinit.
  - unfold obtained_session in Hs.
    destruct given as [s0|]; [done|]. destruct database as [db|]; [done|].
    discriminate Hinit.
Qed.

End ActivityPersons_construction.

(** ** [durations()] on the modelled activity list *)

Lemma elem_of_events (L : gmap string (list Z)) (x : Z) :
  x ∈ ActivityList.events L ↔ ∃ p ts, L !! p = Some ts ∧ x ∈ ts.
Proof.
  unfold ActivityList.events.
  rewrite list_elem_of_In, in_concat. split.
  - intros (ts & Hts & Hx). apply in_map_iff in Hts as ([p ts'] & <- & Hp).
    exists p, ts'. split.
    + by apply elem_of_map_to_list, list_elem_of_In.
    + by apply list_elem_of_In.
  - intros (p & ts & Hp & Hx). exists ts. split.
    + apply in_map_iff. exists (p, ts). split; [done|].
      by apply list_elem_of_In, elem_of_map_to_list.
    + by apply list_elem_of_In.
Qed.

Lemma foldr_min_spec (rest : list Z) (t0 : Z) :
  let m := foldr Z.min t0 rest in
  m ∈ t0 :: rest ∧ Forall (λ x, m ≤ x) (t0 :: rest).
Proof.
  induction rest as [|x rest IH]; simpl.
  - split; [left | repeat constructor; lia].
  - destruct IH as [Hin Hall].
    apply Forall_cons in Hall as [H0 Hall].
    destruct (Z.min_spec x (foldr Z.min t0 rest)) as [[Hlt ->]|[Hle ->]].
    + split; [right; left|].
      constructor; [lia|]. constructor; [lia|].
      eapply Forall_impl; [exact Hall|]. simpl; intros; lia.
    + split.
      * apply elem_of_cons in Hin as [->|Hin]; [left | right; by right].
      * repeat constructor; [lia|lia|done].
Qed.

Lemma latest_spec (ts : list Z) (m : Z) :
  ActivityList.latest ts = Some m → m ∈ ts ∧ Forall (λ x, x ≤ m) ts.
Proof.
  destruct ts as [|t0 rest]; [done|]. intros [= <-]. apply foldr_max_spec.
Qed.

Lemma earliest_spec (ts : list Z) (m : Z) :
  ActivityList.earliest ts = Some m → m ∈ ts ∧ Forall (λ x, m ≤ x) ts.
Proof.
  destruct ts as [|t0 rest]; [done|]. intros [= <-]. apply foldr_min_spec.
Qed.

(** X7. With no snapshot set, on a non-empty activity list, [durations()]
    returns durations that are all zero or more, for "age" as for "idle";
    for "idle" some person has the duration zero. *)
Theorem X7_implicit_snapshot_durations_nonnegative
  (self : DurationPersons (gmap string (list Z))) :
  snapshot self = None →
  valid_var self →
  ActivityList.inv (activity self) →
  activity self ≠ ∅ →
  ∃ d : gmap string Z,
    (durations self).2 = Ok d
    ∧ (∀ p x, d !! p = Some x → 0 ≤ x)
    ∧ (var self = "idle" → ∃ p, d !! p = Some 0).
Proof.
  intros Hs Hvar Hinv Hne.
  destruct (maxend_nonempty _ Hinv Hne) as [t Ht].
  destruct (@durations_implicit _ _ ActivityList_source self t Hs Ht)
    as [Hage Hidle].
  destruct (maxend_is_latest _ _ Ht) as [Hin Hmax].
  rewrite Forall_forall in Hmax.
  assert (∀ p x, idle (activity self) t !! p = Some x → 0 ≤ x) as Hidle0.
  { intros p x. simpl. unfold ActivityList.idle. rewrite lookup_omap.
    destruct (activity self !! p) as [ts|] eqn:Hp; simpl; [|done].
    destruct (ActivityList.latest ts) as [m|] eqn:Hm; simpl; [|done].
    intros [= <-]. apply latest_spec in Hm as [Hm _].
    assert (m ≤ t); [|lia]. apply Hmax, elem_of_events. eauto. }
  destruct Hvar as [Hv|Hv].
  - exists (age (activity self) t). split; [by apply Hage|].
    split; [|rewrite Hv; discriminate].
    intros p x. simpl. unfold ActivityList.age. rewrite lookup_omap.
    destruct (activity self !! p) as [ts|] eqn:Hp; simpl; [|done].
    destruct (ActivityList.earliest ts) as [m|] eqn:Hm; simpl; [|done].
    intros [= <-]. apply earliest_spec in Hm as [Hm _].
    assert (m ≤ t); [|lia]. apply Hmax, elem_of_events. eauto.
  - exists (idle (activity self) t). split; [by apply Hidle|].
    split; [exact Hidle0|]. intros _.
    apply elem_of_events in Hin as (p & ts & Hp & Hts).
    exists p. simpl. unfold ActivityList.idle. rewrite lookup_omap, Hp. simpl.
    destruct (ActivityList.latest ts) as [m|] eqn:Hm.
    + apply latest_spec in Hm as [Hm Hall]. rewrite Forall_forall in Hall.
      simpl. f_equal.
      assert (m ≤ t) by (apply Hmax, elem_of_events; eauto).
      assert (t ≤ m) by (by apply Hall). lia.
    + destruct ts; [by apply elem_of_nil in Hts | discriminate].
Qed.

(** X8. When no person has an event in the window of an ActiveCondition, the
    object constructed with that condition has an empty activity list: its
    [durations()] raises when no snapshot is set, and returns the empty
    mapping when a SnapshotCondition is given as well. *)
Theorem X8_window_without_active_person (v : string)
  (L : gmap string (list Z)) (after before : option Time) :
  in_tuple v ["age"; "idle"] = true →
  (∀ p ts, L !! p = Some ts →
           ActivityList.has_event_in after before ts = false) →
  (∃ self,
     DurationPersons_init v L [ActiveCondition after before] = Ok self
     ∧ activity self = ∅
     ∧ (durations self).2 = Raise EmptyDomainError)
  ∧ (∀ T, ∃ self,
       DurationPersons_init v L
         [ActiveCondition after before; SnapshotCondition T] = Ok self
       ∧ (durations self).2 = Ok (∅ : gmap string Z)).
Proof.
  intros Hv Hnone.
  assert (ActivityList.active L after before = ∅) as Hempty.
  { apply map_empty. intros p. unfold ActivityList.active.
    apply map_lookup_filter_None. right. intros ts Hp. simpl.
    rewrite (Hnone p ts Hp). discriminate. }
  unfold DurationPersons_init, apply_conditions. rewrite Hv.
  cbn [negb for_each modify mbind result_bind ActiveCondition_modify
       SnapshotCondition_modify set_activity set_snapshot
       activity var snapshot active ActivityList_source].
  unfold ActiveCondition_modify, SnapshotCondition_modify, set_snapshot,
    set_activity.
  cbn [activity var snapshot active ActivityList_source].
  rewrite Hempty.
  apply in_tuple_age_idle in Hv as [-> | ->]; (split; [|intros T]);
    eexists; (split; [reflexivity|]);
    unfold durations, ActivityList.age, ActivityList.idle; simpl;
    rewrite ?omap_empty; done.
Qed.

(** X9. Conditions given to the constructor and conditions applied to the
    constructed object come to the same: constructing with [cs1 ++ cs2] is
    constructing with [cs1] and then calling [modify] of every condition of
    [cs2], in order, on the object. *)
Theorem X9_conditions_at_or_after_construction {A D : Type}
  `{ActivitySource A D} (v : string) (L : A)
  (cs1 cs2 : list DurationCondition) (self1 : DurationPersons A) :
  DurationPersons_init v L cs1 = Ok self1 →
  DurationPersons_init v L (cs1 ++ cs2) = apply_conditions cs2 self1.
Proof.
  unfold DurationPersons_init.
  destruct (in_tuple v ["age"; "idle"]); simpl; [|discriminate].
  unfold apply_conditions. rewrite for_each_app. by intros ->.
Qed.

(** ** The further properties on concrete input *)

Lemma X1_witness :
  DurationPersons_init "age" alice_bob
    [SnapshotCondition 100; ActiveCondition (Some 90) None;
     SnapshotCondition 365]
  = Ok {| activity :=
            narrow alice_bob
              (windows [SnapshotCondition 100; ActiveCondition (Some 90) None;
                        SnapshotCondition 365]);
          var := "age";
          snapshot :=
            last_snapshot
              [SnapshotCondition 100; ActiveCondition (Some 90) None;
               SnapshotCondition 365] None |}.
Proof.
  apply (X1_constructed_object "age" alice_bob
           [SnapshotCondition 100; ActiveCondition (Some 90) None;
            SnapshotCondition 365]).
  - reflexivity.
  - repeat constructor.
Defined.

Lemma X3_witness :
  DurationPersons_init "idle" alice_bob [SnapshotCondition 365; RootCondition]
  = Raise (AttributeError "modify").
Proof.
  destruct (X3_constructor_outcome "idle" alice_bob
              [SnapshotCondition 365; RootCondition]) as (_ & [_ Hroot] & _).
  apply Hroot. split; [reflexivity | right; left].
Defined.

Lemma X4_witness :
  ∃ d : gmap string Z,
    (durations (mkDurationPersons (∅ : gmap string (list Z)) "age" (Some 5))).2
    = Ok d.
Proof.
  destruct (X4_durations_raises
              (mkDurationPersons (∅ : gmap string (list Z)) "age" (Some 5))
              EmptyDomainError) as [_ Hset].
  - left. reflexivity.
  - apply (Hset 5). reflexivity.
Defined.


Lemma X6_witness :
  ActivityPersons_init "list_authors" ([period_condition] ++ [nomerges_condition])
    (Some (GivenSession "s")) None false []
  = ([CallSessionQuery; CallSelectPersonsdata "authors";
      CallSelectCommitsperiod; CallGroupByPerson; CallFilter "period"]
       ++ filter_calls [nomerges_condition],
     Ok (mkActivityPersons
           (session
              (mkActivityPersons (GivenSession "s")
                 (Where "date >= start"
                    (GroupByPerson
                       (SelectCommitsperiod
                          (SelectPersonsdata "authors"
                             (SessionQuery (GivenSession "s"))))))))
           (foldl (λ q condition, condition_filter condition q)
              (query
                 (mkActivityPersons (GivenSession "s")
                    (Where "date >= start"
                       (GroupByPerson
                          (SelectCommitsperiod
                             (SelectPersonsdata "authors"
                                (SessionQuery (GivenSession "s"))))))))
              [nomerges_condition]))).
Proof.
  apply (X6_conditions_append "list_authors" [period_condition]
           [nomerges_condition] (Some (GivenSession "s")) None false).
  vm_compute; reflexivity.
Defined.

Lemma X7_witness :
  ∃ d : gmap string Z,
    (durations (mkDurationPersons alice_bob "idle" None)).2 = Ok d
    ∧ ∀ p x, d !! p = Some x → 0 ≤ x.
Proof.
  destruct (X7_implicit_snapshot_durations_nonnegative
              (mkDurationPersons alice_bob "idle" None))
    as (d & Hd & Hpos & _).
  - reflexivity.
  - right. reflexivity.
  - exact alice_bob_inv.
  - exact alice_bob_nonempty.
  - exists d. split; [exact Hd | exact Hpos].
Defined.

Lemma carol_quiet_after_100 (p : string) (ts : list Z) :
  carol !! p = Some ts →
  ActivityList.has_event_in (Some 100) None ts = false.
Proof.
  unfold carol. intros Hp.
  apply lookup_singleton_Some in Hp as [_ <-]. reflexivity.
Defined.

Lemma X8_witness :
  ∃ self,
    DurationPersons_init "age" carol [ActiveCondition (Some 100) None] = Ok self
    ∧ activity self = ∅
    ∧ (durations self).2 = Raise EmptyDomainError.
Proof.
  destruct (X8_window_without_active_person "age" carol (Some 100) None)
    as [Hraise _].
  - reflexivity.
  - exact carol_quiet_after_100.
  - exact Hraise.
Defined.

Lemma X9_witness :
  DurationPersons_init "age" alice_bob
    ([SnapshotCondition 365] ++ [ActiveCondition (Some 90) None])
  = apply_conditions [ActiveCondition (Some 90) None]
      (mkDurationPersons alice_bob "age" (Some 365)).
Proof.
  apply (X9_conditions_at_or_after_construction "age" alice_bob
           [SnapshotCondition 365] [ActiveCondition (Some 90) None]).
  vm_compute; reflexivity.
Defined.
